(** * The client session store of the eco application, and the
      registration contract of its backend.

    The store ([src/vitereact/src/store/main.tsx]) is a zustand store wrapped
    in the [persist] middleware.  Its auth actions are embedded below as
    programs of a small monad carrying the state of the store, the durable
    storage written by the middleware, and the log of the HTTP requests sent
    through axios. *)

From Stdlib Require Import Ascii.
From stdpp Require Import base numbers list strings pretty.

Open Scope Z_scope.
#[local] Set Warnings "-register-all".

(** ** JavaScript values

    What [response.data] of axios can hold (a parsed JSON document) together
    with [undefined], the value of an absent property.  Numbers are the
    integral ones; the store only moves them around. *)

Inductive value : Type :=
| VUndefined
| VNull
| VBool (b : bool)
| VNum (n : Z)
| VStr (s : string)
| VArr (items : list value)
| VObj (props : list (string * value)).

(** The last binding of a name wins, as in an object literal and in
    [JSON.parse]. *)
Fixpoint lookup_prop (k : string) (props : list (string * value)) : option value :=
  match props with
  | [] => None
  | (k', v) :: rest =>
      match lookup_prop k rest with
      | Some w => Some w
      | None => if String.eqb k' k then Some v else None
      end
  end.

(** [v.k] for a property name that no built-in prototype defines (the store
    reads [user], [token] and [message] only): on anything but an object with
    that property the read gives [undefined]. *)
Definition get_field (v : value) (k : string) : value :=
  match v with
  | VObj props => default VUndefined (lookup_prop k props)
  | _ => VUndefined
  end.

Definition keys (v : value) : list string :=
  match v with
  | VObj props => props.*1
  | _ => []
  end.

(** [v == null]: the value is [null] or [undefined]. *)
Definition nullish (v : value) : bool :=
  match v with
  | VUndefined | VNull => true
  | _ => false
  end.

(** ToBoolean. *)
Definition truthy (v : value) : bool :=
  match v with
  | VUndefined | VNull => false
  | VBool b => b
  | VNum n => negb (n =? 0)
  | VStr s => negb (String.eqb s "")
  | VArr _ | VObj _ => true
  end.

(** [a || b] *)
Definition js_or (a b : value) : value := if truthy a then a else b.

(** [v?.k] *)
Definition opt_field (v : value) (k : string) : value :=
  if nullish v then VUndefined else get_field v k.

(** ** The state of the store (the [AppState] type without its actions) *)

Record AuthenticationStatus : Type := {
  is_authenticated : bool;
  is_loading : bool
}.

(** [current_user], [auth_token] and [error_message] are declared
    [User | null], [string | null] and [string | null], but they are assigned
    from [response.data], which is [any]: they hold JavaScript values. *)
Record AuthState : Type := {
  current_user : value;
  auth_token : value;
  authentication_status : AuthenticationStatus;
  error_message : value
}.

Module Initiative.
Record t : Type := { id : string; title : string; description : string }.
End Initiative.

Record ImpactMetrics : Type := { carbon_saved : Z; water_saved : Z }.

Inductive Theme : Type := light | dark.

Record EnvSettings : Type := { theme : Theme }.

Record AppState : Type := {
  auth_state : AuthState;
  featured_initiatives : list Initiative.t;
  user_impact : option ImpactMetrics;
  notification_count : Z;
  environment_settings : EnvSettings
}.

Definition initial_state : AppState :=
  {| auth_state :=
       {| current_user := VNull;
          auth_token := VNull;
          authentication_status := {| is_authenticated := false; is_loading := true |};
          error_message := VNull |};
     featured_initiatives := [];
     user_impact := None;
     notification_count := 0;
     environment_settings := {| theme := light |} |}.

(** The partial object handed to zustand's [set]: the slices it names replace
    those of the state, the others are kept. *)
Record Partial : Type := {
  p_auth_state : option AuthState;
  p_featured_initiatives : option (list Initiative.t);
  p_user_impact : option ImpactMetrics;
  p_notification_count : option Z;
  p_environment_settings : option EnvSettings
}.

Definition only_auth_state (a : AuthState) : Partial :=
  {| p_auth_state := Some a; p_featured_initiatives := None; p_user_impact := None;
     p_notification_count := None; p_environment_settings := None |}.

Definition merge_partial (p : Partial) (state : AppState) : AppState :=
  {| auth_state := default (auth_state state) (p_auth_state p);
     featured_initiatives := default (featured_initiatives state) (p_featured_initiatives p);
     user_impact :=
       match p_user_impact p with Some i => Some i | None => user_impact state end;
     notification_count := default (notification_count state) (p_notification_count p);
     environment_settings := default (environment_settings state) (p_environment_settings p) |}.

(** ** Persistence: the [partialize] option of the [persist] middleware *)

Definition partialize (state : AppState) : value :=
  VObj [("auth_state",
    VObj [("current_user", current_user (auth_state state));
          ("auth_token", auth_token (auth_state state));
          ("authentication_status",
            VObj [("is_authenticated",
                    VBool (is_authenticated (authentication_status (auth_state state))));
                  ("is_loading", VBool false)]);
          ("error_message", VNull)])].

(** Reading an [auth_state] object back into the typed record.  The two flags
    must be booleans, as they are in everything [partialize] writes. *)
Definition read_auth_state (v : value) : option AuthState :=
  let flags := get_field v "authentication_status" in
  match get_field flags "is_authenticated", get_field flags "is_loading" with
  | VBool a, VBool l =>
      Some {| current_user := get_field v "current_user";
              auth_token := get_field v "auth_token";
              authentication_status := {| is_authenticated := a; is_loading := l |};
              error_message := get_field v "error_message" |}
  | _, _ => None
  end.

(** Rehydration by the [persist] middleware of zustand (a dependency of the
    application): the stored object is merged over the state of the fresh
    store, [{...currentState, ...persistedState}], slice by slice.  Storage
    written through [partialize] names the [auth_state] slice only. *)
Definition rehydrate (stored : value) (current : AppState) : option AppState :=
  match stored with
  | VObj props =>
      match lookup_prop "auth_state" props with
      | Some a =>
          a' ← read_auth_state a;
          Some (merge_partial (only_auth_state a') current)
      | None => Some current
      end
  | _ => None
  end.

(** ** HTTP through axios *)

Inductive Method : Type := GET | POST.

(** A header is a literal string or the template [`Bearer ${token}`], kept
    with the value it interpolates. *)
Inductive HeaderValue : Type :=
| Literal (s : string)
| Bearer (token : value).

Record Request : Type := {
  method : Method;
  url : string;
  body : option value;
  headers : list (string * HeaderValue)
}.

Record AxiosResponse : Type := { status : Z; data : value }.

(** What a [catch] clause of the store can receive: the rejection of an axios
    call (an [Error] with a [message], and the [response] when the server
    answered) or a [TypeError] raised in the [try] block (no [response]). *)
Record JsError : Type := { message : string; response : option AxiosResponse }.

Inductive Settled : Type :=
| Resolved (r : AxiosResponse)
| Rejected (e : JsError).

(** The surroundings of the store: the build-time variable and the server
    behind axios. *)
Record Environment : Type := {
  VITE_API_BASE_URL : option string;
  server : Request -> Settled
}.

(** [import.meta.env.VITE_API_BASE_URL || 'http://localhost:3000'] *)
Definition api_base (env : Environment) : string :=
  match VITE_API_BASE_URL env with
  | Some s => if String.eqb s "" then "http://localhost:3000" else s
  | None => "http://localhost:3000"
  end.

(** ** The monad of the actions *)

Record World : Type := {
  store : AppState;
  storage : option value;
  sent : list Request
}.

Inductive Completion (E A : Type) : Type :=
| Return (a : A)
| Throw (e : E).
Arguments Return {E A} a.
Arguments Throw {E A} e.

Definition Async (E A : Type) : Type := Environment -> World -> World * Completion E A.

#[global] Instance Async_ret {E} : MRet (Async E) :=
  fun A a _ w => (w, Return a).

#[global] Instance Async_bind {E} : MBind (Async E) :=
  fun A B f m env w =>
    match m env w with
    | (w', Return a) => f a env w'
    | (w', Throw e) => (w', Throw e)
    end.

#[global] Instance Async_throw {E} : MThrow E (Async E) :=
  fun A e _ w => (w, Throw e).

(** [try { body } catch (error) { handler }] *)
Definition try_catch {E E' A} (body : Async E A) (handler : E -> Async E' A) : Async E' A :=
  fun env w =>
    match body env w with
    | (w', Return a) => (w', Return a)
    | (w', Throw e) => handler e env w'
    end.

(** [get()] *)
Definition get {E} : Async E AppState :=
  fun _ w => (w, Return (store w)).

(** [set((state) => partial)]: zustand merges the partial object into the
    state, and the middleware then writes the projection of the new state to
    storage. *)
Definition set {E} (f : AppState -> Partial) : Async E unit :=
  fun _ w =>
    let state' := merge_partial (f (store w)) (store w) in
    ({| store := state'; storage := Some (partialize state'); sent := sent w |},
     Return tt).

(** [await axios.get/post(...)] *)
Definition axios (req : Request) : Async JsError AxiosResponse :=
  fun env w =>
    let w' := {| store := store w; storage := storage w; sent := sent w ++ [req] |} in
    match server env req with
    | Resolved r => (w', Return r)
    | Rejected e => (w', Throw e)
    end.

(** The message of the [TypeError] of a destructuring of [null] or
    [undefined] (as V8 words it). *)
Definition destructure_message (k : string) (v : value) : string :=
  "Cannot destructure property '" +:+ k +:+ "' of 'response.data' as it is "
    +:+ (match v with VNull => "null" | _ => "undefined" end) +:+ ".".

(** [const { k } = v] *)
Definition destructure (v : value) (k : string) : Async JsError value :=
  if nullish v
  then mthrow {| message := destructure_message k v; response := None |}
  else mret (get_field v k).

(** [import.meta.env.VITE_API_BASE_URL || 'http://localhost:3000'], read where
    the request is built. *)
Definition base_url {E} : Async E string :=
  fun env w => (w, Return (api_base env)).

(** ** The auth actions of the store *)

(** [new Error(errorMessage)], with the value it was built from. *)
Inductive Error : Type := new_Error (errorMessage : value).

Definition login_request (base email password : string) : Request :=
  {| method := POST;
     url := base +:+ "/api/auth/login";
     body := Some (VObj [("email", VStr email); ("password", VStr password)]);
     headers := [("Content-Type", Literal "application/json")] |}.

Definition verify_request (base : string) (token : value) : Request :=
  {| method := GET;
     url := base +:+ "/api/auth/verify";
     body := None;
     headers := [("Authorization", Bearer token)] |}.

(** [error.response?.data?.message || error.message || 'Login failed'] *)
Definition login_error_message (error : JsError) : value :=
  js_or
    (js_or
       (match response error with
        | None => VUndefined
        | Some r => opt_field (data r) "message"
        end)
       (VStr (message error)))
    (VStr "Login failed").

Definition login (email password : string) : Async Error unit :=
  set (fun state => only_auth_state
    {| current_user := current_user (auth_state state);
       auth_token := auth_token (auth_state state);
       authentication_status :=
         {| is_authenticated := is_authenticated (authentication_status (auth_state state));
            is_loading := true |};
       error_message := VNull |}) ;;
  try_catch
    (base ← base_url;
     response ← axios (login_request base email password);
     user ← destructure (data response) "user";
     token ← destructure (data response) "token";
     set (fun state => only_auth_state
       {| current_user := user;
          auth_token := token;
          authentication_status := {| is_authenticated := true; is_loading := false |};
          error_message := VNull |}))
    (fun error =>
       let errorMessage := login_error_message error in
       set (fun state => only_auth_state
         {| current_user := current_user (auth_state state);
            auth_token := auth_token (auth_state state);
            authentication_status := {| is_authenticated := false; is_loading := false |};
            error_message := errorMessage |}) ;;
       mthrow (new_Error errorMessage)).

Definition signed_out : AuthState :=
  {| current_user := VNull;
     auth_token := VNull;
     authentication_status := {| is_authenticated := false; is_loading := false |};
     error_message := VNull |}.

Definition logout : Async Error unit :=
  set (fun _ => only_auth_state signed_out).

Definition check_auth : Async Error unit :=
  state ← get;
  let token := auth_token (auth_state state) in
  if negb (truthy token) then
    set (fun state => only_auth_state
      {| current_user := current_user (auth_state state);
         auth_token := auth_token (auth_state state);
         authentication_status := {| is_authenticated := false; is_loading := false |};
         error_message := error_message (auth_state state) |})
  else
    try_catch
      (base ← base_url;
       response ← axios (verify_request base token);
       user ← destructure (data response) "user";
       set (fun state => only_auth_state
         {| current_user := user;
            auth_token := token;
            authentication_status := {| is_authenticated := true; is_loading := false |};
            error_message := VNull |}))
      (fun error => set (fun _ => only_auth_state signed_out)).

Definition clear_error : Async Error unit :=
  set (fun state => only_auth_state
    {| current_user := current_user (auth_state state);
       auth_token := auth_token (auth_state state);
       authentication_status := authentication_status (auth_state state);
       error_message := VNull |}).

(** ** The other actions *)

Definition set_featured_initiatives (initiatives : list Initiative.t) : Async Error unit :=
  set (fun _ =>
    {| p_auth_state := None; p_featured_initiatives := Some initiatives;
       p_user_impact := None; p_notification_count := None;
       p_environment_settings := None |}).

Definition set_user_impact (impact : ImpactMetrics) : Async Error unit :=
  set (fun _ =>
    {| p_auth_state := None; p_featured_initiatives := None;
       p_user_impact := Some impact; p_notification_count := None;
       p_environment_settings := None |}).

Definition set_notification_count (count : Z) : Async Error unit :=
  set (fun _ =>
    {| p_auth_state := None; p_featured_initiatives := None;
       p_user_impact := None; p_notification_count := Some count;
       p_environment_settings := None |}).

Definition update_environment_settings (settings : EnvSettings) : Async Error unit :=
  set (fun _ =>
    {| p_auth_state := None; p_featured_initiatives := None;
       p_user_impact := None; p_notification_count := None;
       p_environment_settings := Some settings |}).

(** ** Runs of the application *)

Inductive Action : Type :=
| Login (email password : string)
| Logout
| CheckAuth
| ClearError
| SetFeaturedInitiatives (initiatives : list Initiative.t)
| SetUserImpact (impact : ImpactMetrics)
| SetNotificationCount (count : Z)
| UpdateEnvironmentSettings (settings : EnvSettings).

Definition perform (a : Action) : Async Error unit :=
  match a with
  | Login email password => login email password
  | Logout => logout
  | CheckAuth => check_auth
  | ClearError => clear_error
  | SetFeaturedInitiatives initiatives => set_featured_initiatives initiatives
  | SetUserImpact impact => set_user_impact impact
  | SetNotificationCount count => set_notification_count count
  | UpdateEnvironmentSettings settings => update_environment_settings settings
  end.

(** The first launch: a fresh store, nothing in storage, nothing sent. *)
Definition first_launch : World :=
  {| store := initial_state; storage := None; sent := [] |}.

(** A later launch: a fresh store, rehydrated from what storage holds. *)
Definition reload (w : World) : option World :=
  match storage w with
  | None => Some {| store := initial_state; storage := None; sent := sent w |}
  | Some stored =>
      state ← rehydrate stored initial_state;
      Some {| store := state; storage := Some stored; sent := sent w |}
  end.

(** The worlds the application can be in once an action has completed or the
    store has been rehydrated, against environments satisfying [ok]. *)
Inductive reachable (ok : Environment -> Prop) : World -> Prop :=
| reach_first_launch : reachable ok first_launch
| reach_perform w a env :
    reachable ok w -> ok env -> reachable ok (perform a env w).1
| reach_reload w w' :
    reachable ok w -> reload w = Some w' -> reachable ok w'.

(** An executable run: actions, each with the environment it meets, and
    reloads. *)
Inductive Step : Type :=
| Do (a : Action) (env : Environment)
| Reload.

Definition step (w : World) (s : Step) : World :=
  match s with
  | Do a env => (perform a env w).1
  | Reload => default w (reload w)
  end.

Definition run (steps : list Step) (w : World) : World := foldl step w steps.

(** ** Reading a world *)

Definition auth_of (w : World) : AuthState := auth_state (store w).

Definition authenticated (w : World) : bool :=
  is_authenticated (authentication_status (auth_of w)).

Definition loading (w : World) : bool :=
  is_loading (authentication_status (auth_of w)).

(** The token held by durable storage. *)
Definition persisted_token (w : World) : value :=
  match storage w with
  | Some stored => get_field (get_field stored "auth_state") "auth_token"
  | None => VUndefined
  end.

(** A server whose successful answers carry what the store reads from them:
    [user] and [token] on a login, [user] on a verification. *)
Definition serves_sessions (env : Environment) : Prop :=
  forall req r, server env req = Resolved r ->
    match method req with
    | POST => nullish (get_field (data r) "user") = false /\
              nullish (get_field (data r) "token") = false
    | GET => nullish (get_field (data r) "user") = false
    end.

(** What every completed action and every rehydration preserves, against
    servers whose successful answers carry what the store reads. *)
Definition consistent (w : World) : Prop :=
  (authenticated w = true ->
     nullish (current_user (auth_of w)) = false /\ nullish (auth_token (auth_of w)) = false) /\
  (storage w = None \/ storage w = Some (partialize (store w))).

(** ** Sample environments *)

Definition answering (base : option string) (answer : Settled) : Environment :=
  {| VITE_API_BASE_URL := base; server := fun _ => answer |}.

Definition ok200 (d : value) : Settled := Resolved {| status := 200; data := d |}.

Definition session_body : value :=
  VObj [("user", VObj [("id", VStr "u1"); ("email", VStr "ada@example.com")]);
        ("token", VStr "t1")].

(** The body of the login row of the interface table. *)
Definition table_body : value :=
  VObj [("user_id", VStr "u1"); ("auth_token", VStr "t1")].

Definition unauthorized : Settled :=
  Rejected {| message := "Request failed with status code 401";
              response := Some {| status := 401;
                                  data := VObj [("message", VStr "Invalid credentials")] |} |}.

Definition network_down : Settled :=
  Rejected {| message := "Network Error"; response := None |}.

(** A world holding a session: the first launch followed by a successful
    login. *)
Definition signed_in : World :=
  (login "ada@example.com" "pw" (answering None (ok200 session_body)) first_launch).1.

(** ** The registration contract of the backend

    [src/backend/server.test.ts] exercises [POST /api/users/register] of
    [src/backend/server.ts].  The server itself is not among the sources:
    its registration path is modelled from the specification. *)

Module AuthService.

(** Modelled from the spec: the row of the [users] table of [server.ts],
    "User: {id (unique), email (unique, case-normalized), password_hash,
    is_admin (bool), created_at}". *)
Record User : Type := {
  id : nat;
  email : string;
  password_hash : string;
  is_admin : bool;
  created_at : nat
}.

(** Modelled from the spec: the case normalisation of emails in [server.ts]
    ("email (unique, case-normalized)"), letter by letter. *)
Definition lower (c : ascii) : ascii :=
  let n := nat_of_ascii c in
  if ((65 <=? n) && (n <=? 90))%nat then ascii_of_nat (n + 32) else c.

(** Modelled from the spec: the normalised form of an email, the one rows
    are stored and compared under. *)
Fixpoint normalize_email (s : string) : string :=
  match s with
  | EmptyString => EmptyString
  | String c rest => String (lower c) (normalize_email rest)
  end.

(** Modelled from the spec: the comparison behind the uniqueness of emails in
    the [users] table. *)
Definition same_email (a b : string) : bool :=
  String.eqb (normalize_email a) (normalize_email b).

(** Modelled from the spec: the lookup of the Credential Store, the [users]
    table behind [server.ts] that "persists user records (email, password
    hash, admin flag) and enforces email uniqueness".  Its rows are a list,
    in insertion order. *)
Definition find_by_email (e : string) (rows : list User) : option User :=
  List.find (fun u => same_email (email u) e) rows.


(** Modelled from the spec: the id the [users] table gives a new row ("id
    (unique)"). *)
Definition fresh_id (rows : list User) : nat := S (list_max (id <$> rows)).

(** Modelled from the spec: the refusal of the [users] table to take a
    second row with an email it has. *)
Inductive StoreError : Type := UniqueViolation.

(** Modelled from the spec: the insert into the [users] table, one atomic
    operation that is "the authority" on uniqueness and "must reject a racing
    duplicate insert rather than relying on a prior read". *)
Definition insert_user (e hash : string) (now : nat) (rows : list User)
    : StoreError + (list User * nat) :=
  match find_by_email e rows with
  | Some _ => inl UniqueViolation
  | None =>
      let uid := fresh_id rows in
      inr (rows ++ [{| id := uid; email := normalize_email e; password_hash := hash;
                       is_admin := false; created_at := now |}], uid)
  end.

(** Modelled from the spec: the "salted one-way hash" and the issuer of
    session tokens used by [server.ts], both left open. *)
Record Primitives : Type := {
  salted_hash : string -> string;
  issue_token : nat -> string
}.

(** Modelled from the spec: a request to [POST /api/users/register], with
    body [{email, password, username}], and the time it came in. *)
Record RegisterCall : Type := {
  call_email : string;
  call_password : string;
  call_username : string;
  received_at : nat
}.

(** Modelled from the spec: the failure of [register] in [server.ts]. *)
Inductive RegisterError : Type := DuplicateEmail.

(** Modelled from the spec: the success body of [register],
    [{user_id, auth_token}]. *)
Record Registered : Type := { user_id : nat; auth_token : string }.

(** Modelled from the spec: [register(email, password, username)] of
    [server.ts], which
    "checks uniqueness against Credential Store; on collision fails with
    [DuplicateEmail]; otherwise hashes the password with a salted one-way
    hash, stores the user, issues a token, returns [{user_id, auth_token}]". *)
Definition register (P : Primitives) (c : RegisterCall) (rows : list User)
    : list User * (RegisterError + Registered) :=
  match find_by_email (call_email c) rows with
  | Some _ => (rows, inl DuplicateEmail)
  | None =>
      match insert_user (call_email c) (salted_hash P (call_password c))
              (received_at c) rows with
      | inl UniqueViolation => (rows, inl DuplicateEmail)
      | inr (rows', uid) =>
          (rows', inr {| user_id := uid; auth_token := issue_token P uid |})
      end
  end.


(** Modelled from the spec: a [register] request in flight in [server.ts].
    It has either not looked at the store yet, or has passed the uniqueness
    check and not yet inserted, or has finished; concurrent requests
    interleave between these points, and each access to the store is
    atomic. *)
Inductive Thread : Type :=
| Pending (c : RegisterCall)
| Checked (c : RegisterCall)
| Finished (c : RegisterCall) (r : RegisterError + Registered).

(** Modelled from the spec: the next store access of a request in flight;
    two steps of a request alone are [register]. *)
Definition thread_step (P : Primitives) (t : Thread) (rows : list User)
    : Thread * list User :=
  match t with
  | Pending c =>
      match find_by_email (call_email c) rows with
      | Some _ => (Finished c (inl DuplicateEmail), rows)
      | None => (Checked c, rows)
      end
  | Checked c =>
      match insert_user (call_email c) (salted_hash P (call_password c))
              (received_at c) rows with
      | inl UniqueViolation => (Finished c (inl DuplicateEmail), rows)
      | inr (rows', uid) =>
          (Finished c (inr {| user_id := uid; auth_token := issue_token P uid |}), rows')
      end
  | Finished _ _ => (t, rows)
  end.

(** Modelled from the spec: the [users] table together with the requests in
    flight. *)
Record System : Type := { users : list User; threads : list Thread }.

(** Modelled from the spec: one step of the request the scheduler picks; a
    number that names no request changes nothing. *)
Definition system_step (P : Primitives) (sys : System) (i : nat) : System :=
  match threads sys !! i with
  | Some t =>
      let '(t', rows') := thread_step P t (users sys) in
      {| users := rows'; threads := <[i := t']> (threads sys) |}
  | None => sys
  end.

(** Modelled from the spec: an interleaving, the requests named in the order
    they take their steps. *)
Definition run_schedule (P : Primitives) (schedule : list nat) (sys : System) : System :=
  foldl (system_step P) sys schedule.

(** Modelled from the spec: requests arriving together at a store. *)
Definition start (rows : list User) (calls : list RegisterCall) : System :=
  {| users := rows; threads := Pending <$> calls |}.

(** The key of the uniqueness constraint. *)
Definition key (u : User) : string := normalize_email (email u).

Definition unique_emails (rows : list User) : Prop := NoDup (key <$> rows).





(** The fixture of the test "should fail registration with duplicate
    email". *)
Definition sample_primitives : Primitives :=
  {| salted_hash := fun password => "salted:" +:+ password;
     issue_token := fun uid => "token-" +:+ pretty uid |}.


Definition duplicate_call : RegisterCall :=
  {| call_email := "duplicate@example.com"; call_password := "password123";
     call_username := "testuser"; received_at := 1 |}.

Definition shouting_call : RegisterCall :=
  {| call_email := "Duplicate@Example.COM"; call_password := "hunter2";
     call_username := "other"; received_at := 2 |}.

End AuthService.

(** ** The route guard of the root component

    [ProtectedRoute] reads the store through two selectors,
    [state => state.auth_state.is_authenticated] and
    [state => state.auth_state.is_loading]. *)

(** The object [state.auth_state] as it is at run time: the four properties
    every [set] of the store and [partialize] give it. *)
Definition auth_state_object (a : AuthState) : value :=
  VObj [("current_user", current_user a);
        ("auth_token", auth_token a);
        ("authentication_status",
          VObj [("is_authenticated", VBool (is_authenticated (authentication_status a)));
                ("is_loading", VBool (is_loading (authentication_status a)))]);
        ("error_message", error_message a)].

(** What the guard renders. *)
Inductive Element : Type :=
| LoadingSpinner
| Navigate (to : string) (replace : bool)
| Children.

Definition ProtectedRoute (state : AppState) : Element :=
  let isAuthenticated := get_field (auth_state_object (auth_state state)) "is_authenticated" in
  let isLoading := get_field (auth_state_object (auth_state state)) "is_loading" in
  if truthy isLoading then LoadingSpinner
  else if negb (truthy isAuthenticated) then Navigate "/login" true
  else Children.

(** ** Further readings of actions and worlds *)

(** The four actions that set a slice other than [auth_state]. *)
Definition is_setter (a : Action) : bool :=
  match a with
  | SetFeaturedInitiatives _ | SetUserImpact _
  | SetNotificationCount _ | UpdateEnvironmentSettings _ => true
  | Login _ _ | Logout | CheckAuth | ClearError => false
  end.

(** A string, or a value that [||] passes over. *)
Definition text_or_falsy (v : value) : bool :=
  match v with
  | VStr _ => true
  | _ => negb (truthy v)
  end.

(** Storage holds the projection of the state. *)
Definition in_sync (w : World) : Prop := storage w = Some (partialize (store w)).

(** The [auth_state] object held by durable storage, as it is read back. *)
Definition persisted_auth_state (w : World) : value :=
  match storage w with
  | Some stored => get_field stored "auth_state"
  | None => VUndefined
  end.

(** ** Requests in flight

    [login] and [check_auth] are [async]: each runs up to its [await], with
    the request sent, and resumes when the request settles.  In between,
    other actions of the store can run.  The two halves of each are given
    here, and runs in which they interleave. *)

(** The call [axios.post(...)] or [axios.get(...)] itself: the request goes
    out. *)
Definition send {E} (req : Request) : Async E unit :=
  fun _ w => ({| store := store w; storage := storage w; sent := sent w ++ [req] |}, Return tt).

(** The [await] of a request that has settled. *)
Definition settled (answer : Settled) : Async JsError AxiosResponse :=
  fun _ w =>
    (w, match answer with
        | Resolved r => Return r
        | Rejected e => Throw e
        end).

(** [login] up to its [await]. *)
Definition login_begin (email password : string) : Async Error unit :=
  set (fun state => only_auth_state
    {| current_user := current_user (auth_state state);
       auth_token := auth_token (auth_state state);
       authentication_status :=
         {| is_authenticated := is_authenticated (authentication_status (auth_state state));
            is_loading := true |};
       error_message := VNull |}) ;;
  base ← base_url;
  send (login_request base email password).

(** [login] from its [await] on. *)
Definition login_resume (answer : Settled) : Async Error unit :=
  try_catch
    (response ← settled answer;
     user ← destructure (data response) "user";
     token ← destructure (data response) "token";
     set (fun state => only_auth_state
       {| current_user := user;
          auth_token := token;
          authentication_status := {| is_authenticated := true; is_loading := false |};
          error_message := VNull |}))
    (fun error =>
       let errorMessage := login_error_message error in
       set (fun state => only_auth_state
         {| current_user := current_user (auth_state state);
            auth_token := auth_token (auth_state state);
            authentication_status := {| is_authenticated := false; is_loading := false |};
            error_message := errorMessage |}) ;;
       mthrow (new_Error errorMessage)).

(** [check_auth] up to its [await]: it returns the token it read when a
    verification went out, and nothing when it completed at the guard. *)
Definition check_auth_begin : Async Error (option value) :=
  state ← get;
  let token := auth_token (auth_state state) in
  if negb (truthy token) then
    set (fun state => only_auth_state
      {| current_user := current_user (auth_state state);
         auth_token := auth_token (auth_state state);
         authentication_status := {| is_authenticated := false; is_loading := false |};
         error_message := error_message (auth_state state) |}) ;;
    mret None
  else
    base ← base_url;
    send (verify_request base token) ;;
    mret (Some token).

(** [check_auth] from its [await] on, with the token it read before. *)
Definition check_auth_resume (token : value) (answer : Settled) : Async Error unit :=
  try_catch
    (response ← settled answer;
     user ← destructure (data response) "user";
     set (fun state => only_auth_state
       {| current_user := user;
          auth_token := token;
          authentication_status := {| is_authenticated := true; is_loading := false |};
          error_message := VNull |}))
    (fun error => set (fun _ => only_auth_state signed_out)).

(** A call waiting for its request, with the environment it was made in. *)
Inductive Pending : Type :=
| LoginPending (env : Environment) (email password : string)
| VerifyPending (env : Environment) (token : value).

(** The rest of a call, run with the answer its request gets. *)
Definition resume (p : Pending) (w : World) : World * Completion Error unit :=
  match p with
  | LoginPending env email password =>
      login_resume (server env (login_request (api_base env) email password)) env w
  | VerifyPending env token =>
      check_auth_resume token (server env (verify_request (api_base env) token)) env w
  end.

(** The store with the calls in flight. *)
Record Live : Type := { world : World; in_flight : list Pending }.

Inductive Event : Type :=
| Start (a : Action) (env : Environment)
| Settle (i : nat)
| Restart.

(** [Start] runs an action up to its [await], or to its end when it has
    none; [Settle] resumes the call whose request settles, if there is one at
    that place; [Restart] reloads the page, and the calls in flight are
    lost. *)
Definition live_step (l : Live) (ev : Event) : Live :=
  match ev with
  | Start (Login email password) env =>
      {| world := (login_begin email password env (world l)).1;
         in_flight := in_flight l ++ [LoginPending env email password] |}
  | Start CheckAuth env =>
      match check_auth_begin env (world l) with
      | (w', Return (Some token)) =>
          {| world := w'; in_flight := in_flight l ++ [VerifyPending env token] |}
      | (w', _) => {| world := w'; in_flight := in_flight l |}
      end
  | Start a env => {| world := (perform a env (world l)).1; in_flight := in_flight l |}
  | Settle i =>
      match in_flight l !! i with
      | Some p =>
          {| world := (resume p (world l)).1;
             in_flight := delete i (in_flight l) |}
      | None => l
      end
  | Restart => {| world := default (world l) (reload (world l)); in_flight := [] |}
  end.

Definition live_run (events : list Event) (l : Live) : Live := foldl live_step l events.

Definition launched : Live := {| world := first_launch; in_flight := [] |}.

Definition login_in_flight (l : Live) : Prop :=
  exists env email password, LoginPending env email password ∈ in_flight l.

(** What interleaved runs keep. *)
Definition loading_accounted (l : Live) : Prop :=
  (loading (world l) = true ->
     auth_of (world l) = auth_state initial_state \/ login_in_flight l) /\
  (storage (world l) = None \/ in_sync (world l)).

(** * Properties of the session store *)

Ltac unfold_async :=
  unfold login, check_auth, logout, clear_error, set_featured_initiatives,
    set_user_impact, set_notification_count, update_environment_settings,
    try_catch, destructure, base_url, axios, set, get,
    mbind, mret, mthrow, Async_bind, Async_ret, Async_throw in *.

Ltac unfold_world := unfold persisted_token, authenticated, loading, auth_of in *.

Lemma login_error_message_truthy e : truthy (login_error_message e) = true.
Proof.
  unfold login_error_message, js_or.
  repeat case_match; done.
Qed.

Lemma truthy_not_nullish v : truthy v = true -> nullish v = false.
Proof. by destruct v. Qed.

Lemma truthy_not_null v : truthy v = true -> v <> VNull.
Proof. by destruct v. Qed.

(** Without a server message the stored text is the message of the error, or
    ['Login failed'] when that is empty. *)
Lemma login_error_message_no_response e :
  response e = None ->
  login_error_message e = VStr (if String.eqb (message e) "" then "Login failed" else message e).
Proof.
  intros H. unfold login_error_message, js_or. rewrite H. simpl.
  by destruct (String.eqb (message e) "").
Qed.

(** The stored text is a non-empty string unless the server sent a truthy
    message that is not a string. *)
Lemma login_error_message_text e :
  (forall r, response e = Some r -> text_or_falsy (opt_field (data r) "message") = true) ->
  exists s, login_error_message e = VStr s /\ s <> "".
Proof.
  intros Htext. pose proof (login_error_message_truthy e) as Htruthy.
  assert (exists s, login_error_message e = VStr s) as [s Hs].
  { unfold login_error_message, js_or. destruct (response e) as [r |].
    - specialize (Htext r eq_refl).
      destruct (opt_field (data r) "message") as [| | [] | n | m | items | props];
        simpl in *; try discriminate Htext; repeat case_match; eauto.
      destruct n; discriminate.
    - simpl. repeat case_match; eauto. }
  exists s. split; [done |]. rewrite Hs in Htruthy. intros ->. discriminate Htruthy.
Qed.

(** Every [set] leaves in storage the projection of the state it produced. *)
Lemma set_persists (f : AppState -> Partial) env w :
  storage (set (E := Error) f env w).1 = Some (partialize (store (set (E := Error) f env w).1)).
Proof. reflexivity. Qed.

(** ** [login] *)

(** C2, as amended: for every successful answer to the login request whose
    body is neither [null] nor [undefined], [login] returns normally and ends
    authenticated and not loading, with [current_user] set to the [user]
    property of the body and [auth_token] to its [token] property
    ([undefined] where the body has no such property), and [error_message]
    cleared. *)
Theorem login_success email password env w r :
  server env (login_request (api_base env) email password) = Resolved r ->
  nullish (data r) = false ->
  (login email password env w).2 = Return tt /\
  authenticated (login email password env w).1 = true /\
  loading (login email password env w).1 = false /\
  current_user (auth_of (login email password env w).1) = get_field (data r) "user" /\
  auth_token (auth_of (login email password env w).1) = get_field (data r) "token" /\
  error_message (auth_of (login email password env w).1) = VNull.
Proof.
  intros Hr Hd. unfold_world. unfold_async. simpl.
  rewrite Hr. simpl. rewrite Hd. simpl. done.
Qed.

Lemma login_success_witness :
  authenticated (login "ada@example.com" "pw" (answering None (ok200 session_body)) first_launch).1 = true /\
  auth_token (auth_of (login "ada@example.com" "pw" (answering None (ok200 session_body)) first_launch).1)
    = VStr "t1".
Proof.
  pose proof (login_success "ada@example.com" "pw" (answering None (ok200 session_body))
                first_launch {| status := 200; data := session_body |} eq_refl eq_refl)
    as (_ & Ha & _ & _ & Ht & _).
  split; [exact Ha | rewrite Ht; reflexivity].
Defined.

(** C2, as stated, fails: on a body [{user_id, auth_token}] the store reads
    the properties [user] and [token], finds neither, and ends authenticated
    with [current_user] and [auth_token] both [undefined]. *)
Lemma login_user_id_auth_token_body_lost :
  ~ (forall email password env w r uid tok,
       server env (login_request (api_base env) email password) = Resolved r ->
       data r = VObj [("user_id", uid); ("auth_token", tok)] ->
       authenticated (login email password env w).1 = true /\
       current_user (auth_of (login email password env w).1) = uid /\
       auth_token (auth_of (login email password env w).1) = tok /\
       error_message (auth_of (login email password env w).1) = VNull).
Proof.
  intros H.
  destruct (H "ada@example.com" "pw" (answering None (ok200 table_body)) first_launch
              {| status := 200; data := table_body |} (VStr "u1") (VStr "t1")
              eq_refl eq_refl) as (_ & _ & Htok & _).
  vm_compute in Htok. discriminate Htok.
Qed.

Example login_table_body_run :
  auth_of (login "ada@example.com" "pw" (answering None (ok200 table_body)) first_launch).1
  = {| current_user := VUndefined;
       auth_token := VUndefined;
       authentication_status := {| is_authenticated := true; is_loading := false |};
       error_message := VNull |}.
Proof. reflexivity. Qed.

(** A successful answer with a [null] body takes the [catch] branch: the
    destructuring raises. *)
Example login_null_body_run :
  (login "ada@example.com" "pw" (answering None (ok200 VNull)) first_launch).2
  = Throw (new_Error (VStr (destructure_message "user" VNull))).
Proof. reflexivity. Qed.

(** C5, as amended: for every rejection of the login request, [login]
    catches it, ends with [is_authenticated] and [is_loading] false, stores
    an [error_message] that is not null (the message of the server when that
    is truthy, else the message of the error, else ['Login failed']), and
    throws an error built from that message to its caller.  The stored
    message is a non-empty string whenever the message of the server, if
    there is one, is a string or a value that [||] passes over. *)
Theorem login_failure email password env w e :
  server env (login_request (api_base env) email password) = Rejected e ->
  (login email password env w).2 = Throw (new_Error (login_error_message e)) /\
  authenticated (login email password env w).1 = false /\
  loading (login email password env w).1 = false /\
  error_message (auth_of (login email password env w).1) = login_error_message e /\
  truthy (login_error_message e) = true /\
  login_error_message e <> VNull /\
  login_error_message e <> VUndefined /\
  ((forall r, response e = Some r -> text_or_falsy (opt_field (data r) "message") = true) ->
   exists s, error_message (auth_of (login email password env w).1) = VStr s /\ s <> "").
Proof.
  intros Hr. unfold_world. unfold_async. simpl.
  rewrite Hr. simpl.
  pose proof (login_error_message_truthy e) as Ht.
  split; [done |]. split; [done |]. split; [done |]. split; [done |]. split; [done |].
  split; [| split].
  - intros Hn. rewrite Hn in Ht. discriminate.
  - intros Hn. rewrite Hn in Ht. discriminate.
  - apply login_error_message_text.
Qed.

Lemma login_failure_witness :
  (login "ada@example.com" "pw" (answering None unauthorized) first_launch).2
    = Throw (new_Error (VStr "Invalid credentials")) /\
  error_message (auth_of (login "ada@example.com" "pw" (answering None unauthorized) first_launch).1)
    = VStr "Invalid credentials".
Proof.
  pose proof (login_failure "ada@example.com" "pw" (answering None unauthorized) first_launch
                _ eq_refl) as (Hthrow & _ & _ & Hm & _).
  split; [exact Hthrow | exact Hm].
Defined.

(** C5, as stated, fails: the stored message need not be text.  When the
    answer of the server carries a truthy [message] that is not a string,
    here the number 500, that value is what [error_message] holds. *)
Lemma login_failure_message_not_text :
  ~ (forall email password env w e,
       server env (login_request (api_base env) email password) = Rejected e ->
       exists s, error_message (auth_of (login email password env w).1) = VStr s).
Proof.
  intros H.
  destruct (H "ada@example.com" "pw"
              (answering None
                 (Rejected {| message := "Request failed with status code 500";
                              response := Some {| status := 500;
                                                  data := VObj [("message", VNum 500)] |} |}))
              first_launch _ eq_refl) as [s Hs].
  vm_compute in Hs. discriminate Hs.
Qed.

(** C10: for every rejection of the login request, [login] leaves
    [current_user] and [auth_token] as they were before the call, and the
    other slices of the state too; the token held by durable storage is still
    the one the state had. *)
Theorem login_failure_frame email password env w e :
  server env (login_request (api_base env) email password) = Rejected e ->
  current_user (auth_of (login email password env w).1) = current_user (auth_of w) /\
  auth_token (auth_of (login email password env w).1) = auth_token (auth_of w) /\
  persisted_token (login email password env w).1 = auth_token (auth_of w) /\
  featured_initiatives (store (login email password env w).1) = featured_initiatives (store w) /\
  user_impact (store (login email password env w).1) = user_impact (store w) /\
  notification_count (store (login email password env w).1) = notification_count (store w) /\
  environment_settings (store (login email password env w).1) = environment_settings (store w).
Proof.
  intros Hr. unfold_world. unfold_async. simpl.
  rewrite Hr. simpl. done.
Qed.

Lemma login_failure_frame_witness :
  auth_token (auth_of (login "ada@example.com" "wrong" (answering None unauthorized) signed_in).1)
    = VStr "t1" /\
  persisted_token (login "ada@example.com" "wrong" (answering None unauthorized) signed_in).1
    = VStr "t1".
Proof.
  pose proof (login_failure_frame "ada@example.com" "wrong" (answering None unauthorized)
                signed_in _ eq_refl) as (_ & Ht & Hp & _).
  split; [rewrite Ht | rewrite Hp]; reflexivity.
Defined.

(** ** [check_auth] *)

(** C3: from every state whose [auth_token] is null, [check_auth] returns
    with [is_loading] and [is_authenticated] false, and sends no request. *)
Theorem check_auth_without_token env w :
  auth_token (auth_of w) = VNull ->
  (check_auth env w).2 = Return tt /\
  loading (check_auth env w).1 = false /\
  authenticated (check_auth env w).1 = false /\
  sent (check_auth env w).1 = sent w.
Proof.
  unfold_world. intros Htoken. unfold_async. simpl. rewrite Htoken. simpl. done.
Qed.

Lemma check_auth_without_token_witness :
  auth_token (auth_of first_launch) = VNull /\
  loading (check_auth (answering None network_down) first_launch).1 = false /\
  sent (check_auth (answering None network_down) first_launch).1 = [].
Proof.
  split; [reflexivity |].
  pose proof (check_auth_without_token (answering None network_down) first_launch eq_refl)
    as (_ & Hl & _ & Hs).
  split; [exact Hl | exact Hs].
Defined.

(** The guard of [check_auth] is [!token]: every falsy token, the empty
    string included, takes the branch that sends nothing and keeps the
    token. *)
Lemma check_auth_falsy_token env w :
  truthy (auth_token (auth_of w)) = false ->
  (check_auth env w).2 = Return tt /\
  loading (check_auth env w).1 = false /\
  authenticated (check_auth env w).1 = false /\
  auth_token (auth_of (check_auth env w).1) = auth_token (auth_of w) /\
  sent (check_auth env w).1 = sent w.
Proof.
  unfold_world. intros Htoken. unfold_async. simpl. rewrite Htoken. simpl. done.
Qed.

(** C4, as amended: from every state whose [auth_token] is truthy (not null,
    not undefined, not the empty string), [check_auth] returns having sent
    exactly one request, the verification with that token as bearer; if it is
    answered with a body that is neither [null] nor [undefined], the store
    ends authenticated with [current_user] set to the [user] property of the
    body and [auth_token] unchanged; if it is rejected, the store ends
    unauthenticated with [current_user] and [auth_token] null. *)
Theorem check_auth_with_token env w :
  truthy (auth_token (auth_of w)) = true ->
  (check_auth env w).2 = Return tt /\
  sent (check_auth env w).1
    = sent w ++ [{| method := GET;
                    url := api_base env +:+ "/api/auth/verify";
                    body := None;
                    headers := [("Authorization", Bearer (auth_token (auth_of w)))] |}] /\
  (forall r,
     server env (verify_request (api_base env) (auth_token (auth_of w))) = Resolved r ->
     nullish (data r) = false ->
     authenticated (check_auth env w).1 = true /\
     loading (check_auth env w).1 = false /\
     current_user (auth_of (check_auth env w).1) = get_field (data r) "user" /\
     auth_token (auth_of (check_auth env w).1) = auth_token (auth_of w)) /\
  (forall e,
     server env (verify_request (api_base env) (auth_token (auth_of w))) = Rejected e ->
     authenticated (check_auth env w).1 = false /\
     loading (check_auth env w).1 = false /\
     current_user (auth_of (check_auth env w).1) = VNull /\
     auth_token (auth_of (check_auth env w).1) = VNull).
Proof.
  unfold_world. intros Htoken. unfold_async. simpl. rewrite Htoken. simpl.
  destruct (server env (verify_request (api_base env) (auth_token (auth_state (store w)))))
    as [r | e] eqn:Hserver; simpl.
  - destruct (nullish (data r)) eqn:Hdata; simpl;
      (split; [done |]); (split; [done |]); (split; [| done]).
    + intros r' [= <-] Hd. congruence.
    + by intros r' [= <-] _.
  - split; [done |]. split; [done |]. split; [done |]. by intros e' _.
Qed.

Lemma check_auth_with_token_witness :
  truthy (auth_token (auth_of signed_in)) = true /\
  length (sent (check_auth (answering None (ok200 session_body)) signed_in).1)
    = S (length (sent signed_in)) /\
  auth_token (auth_of (check_auth (answering None (ok200 session_body)) signed_in).1) = VStr "t1".
Proof.
  split; [reflexivity |].
  pose proof (check_auth_with_token (answering None (ok200 session_body)) signed_in eq_refl)
    as (_ & Hsent & Hok & _).
  split.
  - rewrite Hsent. reflexivity.
  - destruct (Hok _ eq_refl eq_refl) as (_ & _ & _ & Ht). rewrite Ht. reflexivity.
Defined.

(** A world whose token is the empty string: not null, yet falsy. *)
Example empty_token_sends_nothing :
  sent (check_auth (answering None (ok200 session_body))
          (login "ada@example.com" "pw"
             (answering None (ok200 (VObj [("user", VStr "u1"); ("token", VStr "")])))
             first_launch).1).1
  = sent (login "ada@example.com" "pw"
            (answering None (ok200 (VObj [("user", VStr "u1"); ("token", VStr "")])))
            first_launch).1.
Proof. reflexivity. Qed.

(** C4, as stated, fails: a token that is not null need not be truthy.  With
    the empty string as token, [check_auth] sends no request at all. *)
Lemma check_auth_non_null_token_not_verified :
  ~ (forall env w,
       auth_token (auth_of w) <> VNull ->
       sent (check_auth env w).1
         = sent w ++ [verify_request (api_base env) (auth_token (auth_of w))]).
Proof.
  intros H.
  specialize (H (answering None (ok200 session_body))
                {| store :=
                     {| auth_state :=
                          {| current_user := VNull;
                             auth_token := VStr "";
                             authentication_status :=
                               {| is_authenticated := false; is_loading := true |};
                             error_message := VNull |};
                        featured_initiatives := [];
                        user_impact := None;
                        notification_count := 0;
                        environment_settings := {| theme := light |} |};
                   storage := None;
                   sent := [] |}).
  vm_compute in H. specialize (H ltac:(discriminate)). discriminate H.
Qed.

(** A verification answered with a [null] body ends like a rejected one: the
    destructuring raises inside the [try] block. *)
Example check_auth_null_body_run :
  auth_of (check_auth (answering None (ok200 VNull)) signed_in).1 = signed_out.
Proof. reflexivity. Qed.

(** C6, as amended: for every rejection of the verification, [check_auth]
    catches it and returns normally, sets both authentication flags to false,
    clears [current_user] and [auth_token], and sets [error_message] to null:
    no message is stored. *)
Theorem check_auth_failure env w e :
  truthy (auth_token (auth_of w)) = true ->
  server env (verify_request (api_base env) (auth_token (auth_of w))) = Rejected e ->
  (check_auth env w).2 = Return tt /\
  authenticated (check_auth env w).1 = false /\
  loading (check_auth env w).1 = false /\
  current_user (auth_of (check_auth env w).1) = VNull /\
  auth_token (auth_of (check_auth env w).1) = VNull /\
  error_message (auth_of (check_auth env w).1) = VNull.
Proof.
  unfold_world. intros Htoken Hserver. unfold_async. simpl.
  rewrite Htoken. simpl. rewrite Hserver. simpl. done.
Qed.

Lemma check_auth_failure_witness :
  (check_auth (answering None unauthorized) signed_in).2 = Return tt /\
  error_message (auth_of (check_auth (answering None unauthorized) signed_in).1) = VNull.
Proof.
  pose proof (check_auth_failure (answering None unauthorized) signed_in _ eq_refl eq_refl)
    as (Hret & _ & _ & _ & _ & Hm).
  split; [exact Hret | exact Hm].
Defined.

(** C6, as stated, fails: after a rejected verification the stored
    [error_message] is null. *)
Lemma check_auth_failure_stores_no_message :
  ~ (forall env w e,
       truthy (auth_token (auth_of w)) = true ->
       server env (verify_request (api_base env) (auth_token (auth_of w))) = Rejected e ->
       error_message (auth_of (check_auth env w).1) <> VNull).
Proof.
  intros H.
  exact (H (answering None unauthorized) signed_in _ eq_refl eq_refl eq_refl).
Qed.

(** ** [logout] *)

(** C7: from every state, [logout] returns with [current_user] and
    [auth_token] null and with [is_authenticated] and [is_loading] false. *)
Theorem logout_unconditional env w :
  (logout env w).2 = Return tt /\
  current_user (auth_of (logout env w).1) = VNull /\
  auth_token (auth_of (logout env w).1) = VNull /\
  authenticated (logout env w).1 = false /\
  loading (logout env w).1 = false /\
  sent (logout env w).1 = sent w.
Proof. done. Qed.

(** ** [partialize] *)

(** C8: for every state, the object written to storage has the single
    property [auth_state], holding [current_user], [auth_token] and
    [is_authenticated] of the state, [is_loading] false and [error_message]
    null; it is the same whatever [is_loading], [error_message] and the other
    slices of the state are. *)
Theorem partialize_auth_state_only state :
  keys (partialize state) = ["auth_state"] /\
  keys (get_field (partialize state) "auth_state")
    = ["current_user"; "auth_token"; "authentication_status"; "error_message"] /\
  get_field (get_field (partialize state) "auth_state") "current_user"
    = current_user (auth_state state) /\
  get_field (get_field (partialize state) "auth_state") "auth_token"
    = auth_token (auth_state state) /\
  get_field (get_field (partialize state) "auth_state") "authentication_status"
    = VObj [("is_authenticated",
              VBool (is_authenticated (authentication_status (auth_state state))));
            ("is_loading", VBool false)] /\
  get_field (get_field (get_field (partialize state) "auth_state") "authentication_status")
      "is_loading" = VBool false /\
  get_field (get_field (partialize state) "auth_state") "error_message" = VNull /\
  forall l m initiatives impact count settings,
    partialize
      {| auth_state :=
           {| current_user := current_user (auth_state state);
              auth_token := auth_token (auth_state state);
              authentication_status :=
                {| is_authenticated := is_authenticated (authentication_status (auth_state state));
                   is_loading := l |};
              error_message := m |};
         featured_initiatives := initiatives;
         user_impact := impact;
         notification_count := count;
         environment_settings := settings |}
    = partialize state.
Proof. repeat split. Qed.

(** ** The states the store can reach *)

Lemma first_launch_consistent : consistent first_launch.
Proof. split; [done | by left]. Qed.

Lemma login_consistent email password env w :
  serves_sessions env -> consistent w -> consistent (login email password env w).1.
Proof.
  intros Henv [Hauth _]. unfold consistent. unfold_world. unfold_async. simpl.
  destruct (server env (login_request (api_base env) email password)) as [r | e] eqn:Hserver;
    simpl.
  - destruct (nullish (data r)) eqn:Hdata; simpl.
    + split; [done | by right].
    + split; [| by right]. intros _. exact (Henv _ _ Hserver).
  - split; [done | by right].
Qed.

Lemma check_auth_consistent env w :
  serves_sessions env -> consistent w -> consistent (check_auth env w).1.
Proof.
  intros Henv [Hauth _]. unfold consistent. unfold_world. unfold_async. simpl.
  destruct (truthy (auth_token (auth_state (store w)))) eqn:Htoken; simpl.
  - destruct (server env (verify_request (api_base env) (auth_token (auth_state (store w)))))
      as [r | e] eqn:Hserver; simpl.
    + destruct (nullish (data r)) eqn:Hdata; simpl.
      * split; [done | by right].
      * split; [| by right]. intros _. split.
        -- exact (Henv _ _ Hserver).
        -- by apply truthy_not_nullish.
    + split; [done | by right].
  - split; [done | by right].
Qed.

Lemma perform_consistent a env w :
  serves_sessions env -> consistent w -> consistent (perform a env w).1.
Proof.
  intros Henv Hw. destruct a; simpl.
  - by apply login_consistent.
  - split; [done | by right].
  - by apply check_auth_consistent.
  - destruct Hw as [Hauth _]. split; [exact Hauth | by right].
  - destruct Hw as [Hauth _]. split; [exact Hauth | by right].
  - destruct Hw as [Hauth _]. split; [exact Hauth | by right].
  - destruct Hw as [Hauth _]. split; [exact Hauth | by right].
  - destruct Hw as [Hauth _]. split; [exact Hauth | by right].
Qed.

(** Rehydrating what [partialize] wrote restores [current_user], [auth_token]
    and [is_authenticated], with [is_loading] false and no error message. *)
Lemma rehydrate_partialize state current :
  rehydrate (partialize state) current
  = Some (merge_partial
            (only_auth_state
               {| current_user := current_user (auth_state state);
                  auth_token := auth_token (auth_state state);
                  authentication_status :=
                    {| is_authenticated := is_authenticated (authentication_status (auth_state state));
                       is_loading := false |};
                  error_message := VNull |})
            current).
Proof. reflexivity. Qed.

Lemma reload_consistent w w' : consistent w -> reload w = Some w' -> consistent w'.
Proof.
  intros [Hauth Hstorage] Hreload. unfold reload in Hreload.
  destruct Hstorage as [Hs | Hs]; rewrite Hs in Hreload.
  - injection Hreload as <-. split; [done | by left].
  - rewrite rehydrate_partialize in Hreload. simpl in Hreload.
    injection Hreload as <-. split; [exact Hauth | by right].
Qed.

Lemma reachable_consistent w : reachable serves_sessions w -> consistent w.
Proof.
  induction 1 as [| w a env _ IH Henv | w w' _ IH Hreload].
  - exact first_launch_consistent.
  - by apply perform_consistent.
  - by eapply reload_consistent.
Qed.

Lemma answering_session_serves base : serves_sessions (answering base (ok200 session_body)).
Proof. intros req r [= <-]. by destruct (method req). Qed.

Lemma answering_rejection_serves base e : serves_sessions (answering base (Rejected e)).
Proof. intros req r. discriminate. Qed.

Lemma signed_in_reachable : reachable serves_sessions signed_in.
Proof.
  apply (reach_perform _ first_launch (Login "ada@example.com" "pw")).
  - apply reach_first_launch.
  - apply answering_session_serves.
Defined.

(** C1, as amended: in every state reached from the first launch by actions
    of the store and rehydrations, against servers whose successful login
    answers carry [user] and [token] and whose successful verifications carry
    [user], [is_authenticated] is true only if [current_user] and [auth_token]
    are both neither null nor undefined. *)
Theorem authenticated_has_session w :
  reachable serves_sessions w ->
  authenticated w = true ->
  nullish (current_user (auth_of w)) = false /\ nullish (auth_token (auth_of w)) = false.
Proof. intros Hw. exact (proj1 (reachable_consistent w Hw)). Qed.

Lemma authenticated_has_session_witness :
  authenticated signed_in = true /\
  nullish (current_user (auth_of signed_in)) = false /\
  nullish (auth_token (auth_of signed_in)) = false.
Proof.
  split; [reflexivity |].
  exact (authenticated_has_session signed_in signed_in_reachable eq_refl).
Defined.

(** C1, as stated, fails from right to left: a login that succeeds followed by
    a login that is rejected leaves [current_user] and [auth_token] in place
    with [is_authenticated] false. *)
Lemma authenticated_iff_session_fails :
  ~ (forall w, reachable (fun _ => True) w ->
       (authenticated w = true <->
        current_user (auth_of w) <> VNull /\ auth_token (auth_of w) <> VNull)).
Proof.
  intros H.
  destruct (H (login "ada@example.com" "wrong" (answering None unauthorized) signed_in).1)
    as [_ Hback].
  - apply (reach_perform _ signed_in (Login "ada@example.com" "wrong")); [| done].
    apply (reach_perform _ first_launch (Login "ada@example.com" "pw")); [| done].
    apply reach_first_launch.
  - discriminate Hback. split; discriminate.
Qed.

Example rejected_login_keeps_session :
  auth_of (run [Do (Login "ada@example.com" "pw") (answering None (ok200 session_body));
                Do (Login "ada@example.com" "wrong") (answering None unauthorized)]
             first_launch)
  = {| current_user := VObj [("id", VStr "u1"); ("email", VStr "ada@example.com")];
       auth_token := VStr "t1";
       authentication_status := {| is_authenticated := false; is_loading := false |};
       error_message := VStr "Invalid credentials" |}.
Proof. reflexivity. Qed.

(** The rejected login is written through: a reload brings the same state
    back, and only [check_auth] restores the flag. *)
Example rejected_login_then_reload :
  auth_of (run [Do (Login "ada@example.com" "pw") (answering None (ok200 session_body));
                Do (Login "ada@example.com" "wrong") (answering None unauthorized);
                Reload]
             first_launch)
  = {| current_user := VObj [("id", VStr "u1"); ("email", VStr "ada@example.com")];
       auth_token := VStr "t1";
       authentication_status := {| is_authenticated := false; is_loading := false |};
       error_message := VNull |}.
Proof. reflexivity. Qed.

(** * Properties of registration *)

Module AuthServiceFacts.
Import AuthService.

Lemma lower_idempotent c : lower (lower c) = lower c.
Proof. destruct c as [[] [] [] [] [] [] [] []]; reflexivity. Qed.

Lemma normalize_email_idempotent s : normalize_email (normalize_email s) = normalize_email s.
Proof. induction s as [| c s IH]; simpl; [done |]. by rewrite lower_idempotent, IH. Qed.

Lemma same_email_eq a b : same_email a b = true <-> normalize_email a = normalize_email b.
Proof. unfold same_email. apply String.eqb_eq. Qed.

Lemma find_by_email_None e rows :
  find_by_email e rows = None <-> normalize_email e ∉ key <$> rows.
Proof.
  unfold find_by_email. induction rows as [| u rows IH]; simpl.
  - split; [intros _; apply not_elem_of_nil | done].
  - rewrite not_elem_of_cons. destruct (same_email (email u) e) eqn:Hu.
    + apply same_email_eq in Hu. split; [done |]. intros [Hne _]. by destruct Hne.
    + rewrite IH. split; [| tauto]. intros Hn. split; [| done].
      intros Heq. assert (same_email (email u) e = true) by by apply same_email_eq.
      congruence.
Qed.


Lemma find_by_email_same a b rows :
  same_email a b = true -> find_by_email a rows = None -> find_by_email b rows = None.
Proof. rewrite same_email_eq, !find_by_email_None. by intros ->. Qed.



(** The store only grows, and only by a row whose email is new. *)
Lemma insert_user_rows e hash now rows rows' uid :
  insert_user e hash now rows = inr (rows', uid) ->
  exists u, rows' = rows ++ [u] /\ key u = normalize_email e /\ key u ∉ key <$> rows.
Proof.
  unfold insert_user. destruct (find_by_email e rows) eqn:Hfind; [done |].
  intros [= <- <-]. eexists. split; [done |]. unfold key at 1 2. simpl.
  rewrite normalize_email_idempotent. split; [done |]. by apply find_by_email_None.
Qed.


Lemma thread_step_rows P t rows :
  (thread_step P t rows).2 = rows \/
  exists u, (thread_step P t rows).2 = rows ++ [u] /\ key u ∉ key <$> rows.
Proof.
  destruct t as [c | c | c r]; simpl; [case_match; by left | | by left].
  destruct (insert_user _ _ _ rows) as [[] | [rows' uid]] eqn:Hins; simpl; [by left |].
  right. apply insert_user_rows in Hins as (u & -> & _ & Hu). by exists u.
Qed.

Lemma thread_step_unique P t rows :
  unique_emails rows -> unique_emails (thread_step P t rows).2.
Proof.
  intros Hrows. destruct (thread_step_rows P t rows) as [-> | (u & -> & Hu)]; [done |].
  unfold unique_emails in *. fold key in *. rewrite fmap_app. simpl.
  apply NoDup_app. split; [done |]. split; [| apply NoDup_singleton].
  intros k Hk ->%list_elem_of_singleton. done.
Qed.









(** A call alone in the system, stepped twice, is [register]. *)
Lemma register_two_steps P c rows :
  run_schedule P [0; 0]%nat (start rows [c])
  = {| users := (register P c rows).1; threads := [Finished c (register P c rows).2] |}.
Proof.
  unfold run_schedule, start, system_step, register. simpl.
  destruct (find_by_email (call_email c) rows) eqn:Hfind; simpl; [done |].
  by destruct (insert_user _ _ _ rows) as [[] | [rows' uid]].
Qed.




(** Uniqueness is kept from any store, whatever the calls and their
    interleaving: two calls racing for a new email leave one row. *)
Lemma run_schedule_unique P schedule sys :
  unique_emails (users sys) -> unique_emails (users (run_schedule P schedule sys)).
Proof.
  revert sys. induction schedule as [| i schedule IH]; intros sys Hsys; [done |].
  apply IH. unfold system_step.
  destruct (threads sys !! i) as [t |]; [| done].
  pose proof (thread_step_unique P t _ Hsys) as Hstep.
  by destruct (thread_step P t (users sys)).
Qed.

Example racing_registration :
  run_schedule sample_primitives [0; 1; 0; 1]%nat (start [] [duplicate_call; shouting_call])
  = {| users := [{| id := 1; email := "duplicate@example.com";
                    password_hash := "salted:password123";
                    is_admin := false; created_at := 1 |}];
       threads := [Finished duplicate_call (inr {| user_id := 1; auth_token := "token-1" |});
                   Finished shouting_call (inl DuplicateEmail)] |}.
Proof. reflexivity. Qed.

End AuthServiceFacts.

(** * Further properties of the session store *)

(** ** What each action touches *)

(** X1: [clear_error] sets [error_message] to null and changes nothing else:
    [current_user], [auth_token], both flags and the other slices are kept,
    it returns normally and sends no request. *)
Theorem clear_error_frame env w :
  (clear_error env w).2 = Return tt /\
  error_message (auth_of (clear_error env w).1) = VNull /\
  current_user (auth_of (clear_error env w).1) = current_user (auth_of w) /\
  auth_token (auth_of (clear_error env w).1) = auth_token (auth_of w) /\
  authentication_status (auth_of (clear_error env w).1) = authentication_status (auth_of w) /\
  featured_initiatives (store (clear_error env w).1) = featured_initiatives (store w) /\
  user_impact (store (clear_error env w).1) = user_impact (store w) /\
  notification_count (store (clear_error env w).1) = notification_count (store w) /\
  environment_settings (store (clear_error env w).1) = environment_settings (store w) /\
  sent (clear_error env w).1 = sent w.
Proof. done. Qed.

(** X2: the four setters return normally, send nothing, leave [auth_state]
    as it is, and so leave the projection written to storage as it is. *)
Theorem setters_keep_session a env w :
  is_setter a = true ->
  (perform a env w).2 = Return tt /\
  auth_state (store (perform a env w).1) = auth_state (store w) /\
  partialize (store (perform a env w).1) = partialize (store w) /\
  sent (perform a env w).1 = sent w.
Proof. by destruct a. Qed.

Lemma setters_keep_session_witness :
  auth_state (store (perform (SetNotificationCount 3) (answering None network_down) signed_in).1)
  = auth_state (store signed_in).
Proof.
  exact (proj1 (proj2 (setters_keep_session (SetNotificationCount 3)
                         (answering None network_down) signed_in eq_refl))).
Defined.

Lemma login_other_slices email password env w :
  featured_initiatives (store (login email password env w).1) = featured_initiatives (store w) /\
  user_impact (store (login email password env w).1) = user_impact (store w) /\
  notification_count (store (login email password env w).1) = notification_count (store w) /\
  environment_settings (store (login email password env w).1) = environment_settings (store w).
Proof.
  unfold_async. simpl.
  destruct (server env (login_request (api_base env) email password)) as [r | e]; simpl;
    [destruct (nullish (data r)); simpl |]; done.
Qed.

Lemma check_auth_other_slices env w :
  featured_initiatives (store (check_auth env w).1) = featured_initiatives (store w) /\
  user_impact (store (check_auth env w).1) = user_impact (store w) /\
  notification_count (store (check_auth env w).1) = notification_count (store w) /\
  environment_settings (store (check_auth env w).1) = environment_settings (store w).
Proof.
  unfold_async. simpl.
  destruct (truthy (auth_token (auth_state (store w)))); simpl; [| done].
  destruct (server env (verify_request (api_base env) (auth_token (auth_state (store w)))))
    as [r | e]; simpl; [destruct (nullish (data r)); simpl |]; done.
Qed.

(** X3: whatever the server answers, an action changes a slice other than
    [auth_state] only if it is the setter of that slice, which sets it to its
    argument; [login], [logout], [check_auth] and [clear_error] change none
    of them. *)
Theorem perform_other_slices a env w :
  featured_initiatives (store (perform a env w).1)
    = match a with
      | SetFeaturedInitiatives initiatives => initiatives
      | _ => featured_initiatives (store w)
      end /\
  user_impact (store (perform a env w).1)
    = match a with
      | SetUserImpact impact => Some impact
      | _ => user_impact (store w)
      end /\
  notification_count (store (perform a env w).1)
    = match a with
      | SetNotificationCount count => count
      | _ => notification_count (store w)
      end /\
  environment_settings (store (perform a env w).1)
    = match a with
      | UpdateEnvironmentSettings settings => settings
      | _ => environment_settings (store w)
      end.
Proof.
  destruct a; try done.
  - apply login_other_slices.
  - apply check_auth_other_slices.
Qed.

Lemma login_in_sync email password env w : in_sync (login email password env w).1.
Proof.
  unfold in_sync. unfold_async. simpl.
  destruct (server env (login_request (api_base env) email password)) as [r | e]; simpl;
    [destruct (nullish (data r)); simpl |]; done.
Qed.

Lemma check_auth_in_sync env w : in_sync (check_auth env w).1.
Proof.
  unfold in_sync. unfold_async. simpl.
  destruct (truthy (auth_token (auth_state (store w)))); simpl; [| done].
  destruct (server env (verify_request (api_base env) (auth_token (auth_state (store w)))))
    as [r | e]; simpl; [destruct (nullish (data r)); simpl |]; done.
Qed.

Lemma perform_in_sync a env w : in_sync (perform a env w).1.
Proof.
  destruct a; try done.
  - apply login_in_sync.
  - apply check_auth_in_sync.
Qed.

(** X4: after every action, whatever the server answers, storage has been
    written, and what is read back from its [auth_state] is what the state
    the action ended in holds: [current_user], [auth_token] and
    [is_authenticated] as in the state, [is_loading] false and
    [error_message] null.  Nothing the store shows of the session is ahead of
    what is persisted. *)
Theorem perform_persisted_reads a env w :
  storage (perform a env w).1 <> None /\
  get_field (persisted_auth_state (perform a env w).1) "current_user"
    = current_user (auth_of (perform a env w).1) /\
  get_field (persisted_auth_state (perform a env w).1) "auth_token"
    = auth_token (auth_of (perform a env w).1) /\
  get_field (get_field (persisted_auth_state (perform a env w).1) "authentication_status")
      "is_authenticated"
    = VBool (authenticated (perform a env w).1) /\
  get_field (get_field (persisted_auth_state (perform a env w).1) "authentication_status")
      "is_loading"
    = VBool false /\
  get_field (persisted_auth_state (perform a env w).1) "error_message" = VNull.
Proof.
  pose proof (perform_in_sync a env w) as Hsync. unfold in_sync in Hsync.
  unfold persisted_auth_state. rewrite Hsync. done.
Qed.

(** X5: the requests of every action.  [login] sends exactly one, the POST of
    the credentials to [/api/auth/login], whatever the answer; [check_auth]
    sends the verification of the token it holds when that token is truthy
    and nothing otherwise; no other action sends anything, and nothing is
    ever removed from the log. *)
Theorem perform_requests a env w :
  sent (perform a env w).1
  = sent w ++
    match a with
    | Login email password =>
        [{| method := POST;
            url := api_base env +:+ "/api/auth/login";
            body := Some (VObj [("email", VStr email); ("password", VStr password)]);
            headers := [("Content-Type", Literal "application/json")] |}]
    | CheckAuth =>
        if truthy (auth_token (auth_of w))
        then [verify_request (api_base env) (auth_token (auth_of w))]
        else []
    | _ => []
    end.
Proof.
  destruct a; simpl; try (by rewrite app_nil_r).
  - unfold_async. simpl.
    destruct (server env (login_request (api_base env) email password)) as [r | e]; simpl;
      [destruct (nullish (data r)); simpl |]; done.
  - unfold_world. unfold_async. simpl.
    destruct (truthy (auth_token (auth_state (store w)))); simpl; [| by rewrite app_nil_r].
    destruct (server env (verify_request (api_base env) (auth_token (auth_state (store w)))))
      as [r | e]; simpl; [destruct (nullish (data r)); simpl |]; done.
Qed.

(** ** Answers without a body *)

(** X6: a login answered successfully but with a [null] or [undefined] body
    ends as a failed one: the destructuring raises inside the [try] block, so
    [login] throws, both flags end false, [current_user] and [auth_token] are
    kept, and the stored [error_message] is the text of the [TypeError]. *)
Theorem login_nullish_body email password env w r :
  server env (login_request (api_base env) email password) = Resolved r ->
  nullish (data r) = true ->
  (login email password env w).2
    = Throw (new_Error (VStr (destructure_message "user" (data r)))) /\
  authenticated (login email password env w).1 = false /\
  loading (login email password env w).1 = false /\
  current_user (auth_of (login email password env w).1) = current_user (auth_of w) /\
  auth_token (auth_of (login email password env w).1) = auth_token (auth_of w) /\
  error_message (auth_of (login email password env w).1)
    = VStr (destructure_message "user" (data r)).
Proof.
  intros Hr Hd. unfold_world. unfold_async. simpl.
  rewrite Hr. simpl. rewrite Hd. simpl.
  by destruct (data r).
Qed.

Lemma login_nullish_body_witness :
  (login "ada@example.com" "pw" (answering None (ok200 VUndefined)) signed_in).2
    = Throw (new_Error (VStr "Cannot destructure property 'user' of 'response.data' as it is undefined.")) /\
  auth_token (auth_of (login "ada@example.com" "pw" (answering None (ok200 VUndefined)) signed_in).1)
    = VStr "t1".
Proof.
  pose proof (login_nullish_body "ada@example.com" "pw" (answering None (ok200 VUndefined))
                signed_in _ eq_refl eq_refl) as (Hthrow & _ & _ & _ & Ht & _).
  split; [exact Hthrow | rewrite Ht; reflexivity].
Defined.

(** X7: a verification answered successfully but with a [null] or
    [undefined] body signs the user out: [check_auth] returns normally and the
    store ends with [current_user] and [auth_token] null, both flags false and
    no error message, as after a rejected verification. *)
Theorem check_auth_nullish_body env w r :
  truthy (auth_token (auth_of w)) = true ->
  server env (verify_request (api_base env) (auth_token (auth_of w))) = Resolved r ->
  nullish (data r) = true ->
  (check_auth env w).2 = Return tt /\
  auth_of (check_auth env w).1 = signed_out.
Proof.
  unfold_world. intros Htoken Hr Hd. unfold_async. simpl.
  rewrite Htoken. simpl. rewrite Hr. simpl. rewrite Hd. simpl. done.
Qed.

Lemma check_auth_nullish_body_witness :
  auth_of (check_auth (answering None (ok200 VNull)) signed_in).1 = signed_out.
Proof.
  exact (proj2 (check_auth_nullish_body (answering None (ok200 VNull)) signed_in _
                  eq_refl eq_refl eq_refl)).
Defined.

(** ** What the auth actions never do *)

(** X8: [check_auth] never throws and never leaves the store loading,
    whatever the state and the server; afterwards [auth_token] is the token
    it started with or null, and the store is authenticated only with the
    token it started with, which was then truthy. *)
Theorem check_auth_never_throws env w :
  (check_auth env w).2 = Return tt /\
  loading (check_auth env w).1 = false /\
  (auth_token (auth_of (check_auth env w).1) = auth_token (auth_of w) \/
   auth_token (auth_of (check_auth env w).1) = VNull) /\
  (authenticated (check_auth env w).1 = true ->
   truthy (auth_token (auth_of w)) = true /\
   auth_token (auth_of (check_auth env w).1) = auth_token (auth_of w)).
Proof.
  unfold_world. unfold_async. simpl.
  destruct (truthy (auth_token (auth_state (store w)))) eqn:Htoken; simpl.
  - destruct (server env (verify_request (api_base env) (auth_token (auth_state (store w)))))
      as [r | e]; simpl; [destruct (nullish (data r)); simpl |];
      repeat split; try done; by (left + right).
  - repeat split; try done. by left.
Qed.

(** X9: [login] never leaves the store loading, and it returns normally
    exactly when the store ends authenticated; otherwise it throws. *)
Theorem login_returns_iff_authenticated email password env w :
  loading (login email password env w).1 = false /\
  ((login email password env w).2 = Return tt <->
   authenticated (login email password env w).1 = true) /\
  ((exists err, (login email password env w).2 = Throw err) <->
   authenticated (login email password env w).1 = false).
Proof.
  unfold_world. unfold_async. simpl.
  destruct (server env (login_request (api_base env) email password)) as [r | e]; simpl;
    [destruct (nullish (data r)); simpl |].
  - split; [done |]. split; [done |]. split; [done | eauto].
  - split; [done |]. split; [done |]. split; [by intros [err ?] | done].
  - split; [done |]. split; [done |]. split; [done | eauto].
Qed.

(** X10: the credentials go into the request and nowhere else.  Two logins
    whose requests get the same answer end in the same state, write the same
    thing to storage and complete alike, whatever email and password each
    was given. *)
Theorem login_credentials_not_stored email1 password1 email2 password2 env w :
  server env (login_request (api_base env) email1 password1)
    = server env (login_request (api_base env) email2 password2) ->
  store (login email1 password1 env w).1 = store (login email2 password2 env w).1 /\
  storage (login email1 password1 env w).1 = storage (login email2 password2 env w).1 /\
  (login email1 password1 env w).2 = (login email2 password2 env w).2.
Proof.
  intros Hsame. unfold_async. simpl. rewrite Hsame.
  destruct (server env (login_request (api_base env) email2 password2)) as [r | e]; simpl;
    [destruct (nullish (data r)); simpl |]; done.
Qed.

Lemma login_credentials_not_stored_witness :
  store (login "ada@example.com" "pw" (answering None (ok200 session_body)) first_launch).1
  = store (login "grace@example.com" "other" (answering None (ok200 session_body)) first_launch).1.
Proof.
  exact (proj1 (login_credentials_not_stored "ada@example.com" "pw" "grace@example.com" "other"
                  (answering None (ok200 session_body)) first_launch eq_refl)).
Defined.

(** X11: after a rejected login the stored [error_message] is a non-empty
    string whenever the [message] of the server's answer, if there is one, is
    a string or a value that [||] passes over. *)
Theorem login_failure_message_text email password env w e :
  server env (login_request (api_base env) email password) = Rejected e ->
  (forall r, response e = Some r -> text_or_falsy (opt_field (data r) "message") = true) ->
  exists s, error_message (auth_of (login email password env w).1) = VStr s /\ s <> "".
Proof.
  intros Hr Htext. unfold_world. unfold_async. simpl. rewrite Hr. simpl.
  by apply login_error_message_text.
Qed.

Lemma login_failure_message_text_witness :
  exists s,
    error_message (auth_of (login "ada@example.com" "pw"
                              (answering None
                                 (Rejected {| message := ""; response := None |}))
                              first_launch).1) = VStr s /\ s <> "".
Proof.
  apply (login_failure_message_text "ada@example.com" "pw"
           (answering None (Rejected {| message := ""; response := None |}))
           first_launch {| message := ""; response := None |} eq_refl).
  intros r Hr. discriminate Hr.
Defined.

(** The message of the server is stored as it comes, a string or not. *)
Example login_failure_message_number :
  error_message
    (auth_of (login "ada@example.com" "pw"
                (answering None
                   (Rejected {| message := "Request failed with status code 500";
                                response := Some {| status := 500;
                                                    data := VObj [("message", VNum 500)] |} |}))
                first_launch).1)
  = VNum 500.
Proof. reflexivity. Qed.

(** ** How the actions compose *)

(** X12: after [logout], [check_auth] sends nothing, whatever the server
    would answer, and the store stays signed out. *)
Theorem logout_then_check_auth env env' w :
  (check_auth env' (logout env w).1).2 = Return tt /\
  sent (check_auth env' (logout env w).1).1 = sent w /\
  auth_of (check_auth env' (logout env w).1).1 = signed_out.
Proof. done. Qed.

(** X13: a rejected login does not sign out.  From a state with a truthy
    token, a login that is rejected followed by [check_auth] sends the
    verification of the token held before the login; if that is answered with
    a body, the store is authenticated again with that token. *)
Theorem rejected_login_then_check_auth email password env env' w e :
  truthy (auth_token (auth_of w)) = true ->
  server env (login_request (api_base env) email password) = Rejected e ->
  sent (check_auth env' (login email password env w).1).1
    = sent w ++ [login_request (api_base env) email password;
                 verify_request (api_base env') (auth_token (auth_of w))] /\
  (forall r,
     server env' (verify_request (api_base env') (auth_token (auth_of w))) = Resolved r ->
     nullish (data r) = false ->
     authenticated (check_auth env' (login email password env w).1).1 = true /\
     auth_token (auth_of (check_auth env' (login email password env w).1).1)
       = auth_token (auth_of w) /\
     error_message (auth_of (check_auth env' (login email password env w).1).1) = VNull).
Proof.
  unfold_world. intros Htoken Hlogin. unfold_async. simpl.
  rewrite Hlogin. simpl. rewrite Htoken. simpl.
  destruct (server env' (verify_request (api_base env') (auth_token (auth_state (store w)))))
    as [r | e'] eqn:Hverify; simpl.
  - destruct (nullish (data r)) eqn:Hdata; simpl.
    + split; [by rewrite <- app_assoc |]. intros r' [= <-] Hd. congruence.
    + split; [by rewrite <- app_assoc |]. by intros r' [= <-] _.
  - split; [by rewrite <- app_assoc |]. by intros r' Hr'.
Qed.

Lemma rejected_login_then_check_auth_witness :
  authenticated
    (check_auth (answering None (ok200 session_body))
       (login "ada@example.com" "wrong" (answering None unauthorized) signed_in).1).1 = true.
Proof.
  pose proof (rejected_login_then_check_auth "ada@example.com" "wrong"
                (answering None unauthorized) (answering None (ok200 session_body))
                signed_in _ eq_refl eq_refl) as [_ Hverified].
  exact (proj1 (Hverified _ eq_refl eq_refl)).
Defined.

(** ** Persistence *)

(** X14: when storage holds the projection of the state, a reload brings back
    [current_user], [auth_token] and [is_authenticated] as they were, with
    [is_loading] false and no error message, and the other slices as in a
    fresh store; storage is left as it is, and a second reload changes
    nothing. *)
Theorem reload_restores_session w :
  in_sync w ->
  exists w',
    reload w = Some w' /\
    current_user (auth_of w') = current_user (auth_of w) /\
    auth_token (auth_of w') = auth_token (auth_of w) /\
    authenticated w' = authenticated w /\
    loading w' = false /\
    error_message (auth_of w') = VNull /\
    featured_initiatives (store w') = [] /\
    user_impact (store w') = None /\
    notification_count (store w') = 0 /\
    environment_settings (store w') = {| theme := light |} /\
    storage w' = storage w /\
    reload w' = Some w'.
Proof.
  unfold in_sync. intros Hsync. unfold reload. rewrite Hsync.
  rewrite rehydrate_partialize. simpl. eexists. split; [reflexivity |].
  simpl. repeat split.
Qed.

Lemma reload_restores_session_witness :
  exists w',
    reload signed_in = Some w' /\ auth_token (auth_of w') = VStr "t1" /\
    authenticated w' = true /\ loading w' = false.
Proof.
  destruct (reload_restores_session signed_in eq_refl)
    as (w' & Hreload & _ & Htoken & Hauth & Hloading & _).
  exists w'. split; [exact Hreload |]. split; [rewrite Htoken; reflexivity |].
  split; [rewrite Hauth; reflexivity | exact Hloading].
Defined.

(** ** Calls in flight *)

Ltac unfold_halves :=
  unfold resume, login_begin, login_resume, check_auth_begin, check_auth_resume,
    send, settled in *.

(** The two halves of [login], run one after the other, are [login]. *)
Lemma login_two_halves email password env w :
  login email password env w
  = (login_begin email password ;;
     login_resume (server env (login_request (api_base env) email password))) env w.
Proof.
  unfold_halves. unfold_async. simpl.
  by destruct (server env (login_request (api_base env) email password)).
Qed.

(** And so for [check_auth]. *)
Lemma check_auth_two_halves env w :
  check_auth env w
  = (sent_token ← check_auth_begin;
     match sent_token with
     | Some token =>
         check_auth_resume token (server env (verify_request (api_base env) token))
     | None => mret tt
     end) env w.
Proof.
  unfold_halves. unfold_async. simpl.
  destruct (truthy (auth_token (auth_state (store w)))); simpl; [| done].
  by destruct (server env (verify_request (api_base env) (auth_token (auth_state (store w))))).
Qed.

(** An action started with nothing in flight and settled at once is the
    action run whole. *)
Lemma start_then_settle a env w :
  live_run [Start a env; Settle 0%nat] {| world := w; in_flight := [] |}
  = {| world := (perform a env w).1; in_flight := [] |}.
Proof.
  destruct a; try done.
  - simpl. by rewrite login_two_halves.
  - simpl. rewrite check_auth_two_halves.
    unfold_halves. unfold_async. simpl.
    by destruct (truthy (auth_token (auth_state (store w)))).
Qed.

Lemma login_resume_not_loading answer env w :
  loading (login_resume answer env w).1 = false /\ in_sync (login_resume answer env w).1.
Proof.
  unfold in_sync. unfold_world. unfold_halves. unfold_async. simpl.
  destruct answer as [r | e]; simpl; [destruct (nullish (data r)); simpl |]; done.
Qed.

Lemma check_auth_resume_not_loading token answer env w :
  loading (check_auth_resume token answer env w).1 = false /\
  in_sync (check_auth_resume token answer env w).1.
Proof.
  unfold in_sync. unfold_world. unfold_halves. unfold_async. simpl.
  destruct answer as [r | e]; simpl; [destruct (nullish (data r)); simpl |]; done.
Qed.

Lemma login_in_flight_app l ps w :
  login_in_flight l ->
  login_in_flight {| world := w; in_flight := in_flight l ++ ps |}.
Proof.
  intros (env & email & password & Hin). exists env, email, password.
  simpl. apply elem_of_app. by left.
Qed.

Lemma live_step_loading_accounted l ev :
  loading_accounted l -> loading_accounted (live_step l ev).
Proof.
  intros [Hloading Hstorage].
  destruct ev as [a env | i |].
  - destruct a; simpl.
    + split; [| by right]. intros _. right.
      exists env, email, password. simpl. apply elem_of_app. right. apply list_elem_of_singleton. done.
    + split; [done | by right].
    + unfold_halves. unfold_async. simpl.
      destruct (truthy (auth_token (auth_state (store (world l))))); simpl.
      * split; [| done]. intros Hl. destruct (Hloading Hl) as [Hinit | Hflight]; [by left |].
        right. by apply login_in_flight_app.
      * split; [done | by right].
    + split; [| by right]. intros Hl. destruct (Hloading Hl) as [Hinit | Hflight].
      * left. unfold_world. simpl in *. by rewrite Hinit.
      * right. destruct Hflight as (env' & email & password & Hin). by exists env', email, password.
    + split; [| by right]. intros Hl. destruct (Hloading Hl) as [Hinit | Hflight]; [by left |].
      right. destruct Hflight as (env' & email & password & Hin). by exists env', email, password.
    + split; [| by right]. intros Hl. destruct (Hloading Hl) as [Hinit | Hflight]; [by left |].
      right. destruct Hflight as (env' & email & password & Hin). by exists env', email, password.
    + split; [| by right]. intros Hl. destruct (Hloading Hl) as [Hinit | Hflight]; [by left |].
      right. destruct Hflight as (env' & email & password & Hin). by exists env', email, password.
    + split; [| by right]. intros Hl. destruct (Hloading Hl) as [Hinit | Hflight]; [by left |].
      right. destruct Hflight as (env' & email & password & Hin). by exists env', email, password.
  - simpl. destruct (in_flight l !! i) as [p |]; [| done].
    assert (loading (resume p (world l)).1 = false /\ in_sync (resume p (world l)).1)
      as [Hl Hsync].
    { destruct p; [apply login_resume_not_loading | apply check_auth_resume_not_loading]. }
    split; [| by right]. intros Hl'.
    change (loading (resume p (world l)).1 = true) in Hl'. congruence.
  - simpl. unfold reload.
    destruct Hstorage as [Hs | Hs]; [| unfold in_sync in Hs]; rewrite Hs.
    + split; [by left | by left].
    + rewrite rehydrate_partialize. split; [done | by right].
Qed.

(** X15: in every run of the store, with calls starting, requests settling
    in any order, other actions completing in between and reloads dropping
    the calls in flight, whatever the servers answer: when [is_loading] is
    true, either [auth_state] is still the initial one or a login is in
    flight. *)
Theorem loading_initial_or_login_in_flight events :
  loading (world (live_run events launched)) = true ->
  auth_of (world (live_run events launched)) = auth_state initial_state \/
  login_in_flight (live_run events launched).
Proof.
  assert (forall l, loading_accounted l -> loading_accounted (live_run events l)) as Hrun.
  { induction events as [| ev events IH]; intros l Hl; [done |].
    apply IH. by apply live_step_loading_accounted. }
  apply Hrun. split; [by left | by left].
Qed.

Lemma loading_initial_or_login_in_flight_witness :
  loading (world (live_run [Start (Login "ada@example.com" "pw") (answering None (ok200 session_body));
                            Settle 0%nat;
                            Start (Login "grace@example.com" "pw") (answering None unauthorized);
                            Start ClearError (answering None network_down)]
                    launched)) = true /\
  login_in_flight
    (live_run [Start (Login "ada@example.com" "pw") (answering None (ok200 session_body));
               Settle 0%nat;
               Start (Login "grace@example.com" "pw") (answering None unauthorized);
               Start ClearError (answering None network_down)]
       launched).
Proof.
  split; [reflexivity |].
  destruct (loading_initial_or_login_in_flight
              [Start (Login "ada@example.com" "pw") (answering None (ok200 session_body));
               Settle 0%nat;
               Start (Login "grace@example.com" "pw") (answering None unauthorized);
               Start ClearError (answering None network_down)] eq_refl)
    as [Hinitial | Hflight]; [discriminate Hinitial | exact Hflight].
Defined.

(** The state the atomic reading leaves out: a login in flight over a
    session, [is_loading] true and [auth_state] not the initial one. *)
Example loading_over_a_session :
  auth_of (world (live_run [Start (Login "ada@example.com" "pw")
                              (answering None (ok200 session_body));
                            Settle 0%nat;
                            Start (Login "grace@example.com" "pw")
                              (answering None unauthorized)]
                    launched))
  = {| current_user := VObj [("id", VStr "u1"); ("email", VStr "ada@example.com")];
       auth_token := VStr "t1";
       authentication_status := {| is_authenticated := true; is_loading := true |};
       error_message := VNull |}.
Proof. reflexivity. Qed.

(** X19: a logout while a verification is in flight is undone when the
    verification succeeds.  [check_auth] resumes with the token it read
    before its [await]: started on a truthy token, followed by a completed
    [logout], and then answered with a body, it leaves the store
    authenticated with that token and the user of the answer. *)
Theorem logout_during_verification_undone env env' w r :
  truthy (auth_token (auth_of w)) = true ->
  server env (verify_request (api_base env) (auth_token (auth_of w))) = Resolved r ->
  nullish (data r) = false ->
  auth_of (world (live_run [Start CheckAuth env; Start Logout env']
                    {| world := w; in_flight := [] |})) = signed_out /\
  auth_of (world (live_run [Start CheckAuth env; Start Logout env'; Settle 0%nat]
                    {| world := w; in_flight := [] |}))
  = {| current_user := get_field (data r) "user";
       auth_token := auth_token (auth_of w);
       authentication_status := {| is_authenticated := true; is_loading := false |};
       error_message := VNull |} /\
  in_flight (live_run [Start CheckAuth env; Start Logout env'; Settle 0%nat]
               {| world := w; in_flight := [] |}) = [].
Proof.
  unfold_world. intros Htoken Hr Hd.
  unfold live_run. simpl. unfold_halves. unfold_async. simpl.
  rewrite Htoken. simpl. rewrite Hr. simpl. rewrite Hd. simpl. done.
Qed.

Lemma logout_during_verification_undone_witness :
  auth_token
    (auth_of (world (live_run [Start CheckAuth (answering None (ok200 session_body));
                               Start Logout (answering None network_down);
                               Settle 0%nat]
                       {| world := signed_in; in_flight := [] |})))
  = VStr "t1".
Proof.
  pose proof (logout_during_verification_undone (answering None (ok200 session_body))
                (answering None network_down) signed_in _ eq_refl eq_refl eq_refl)
    as (_ & Hafter & _).
  rewrite Hafter. reflexivity.
Defined.

(** ** The route guard *)

(** X16: whatever the state of the store, the guard renders the redirection
    to [/login]: [auth_state] has no property [is_loading] or
    [is_authenticated] of its own (both are inside [authentication_status]),
    so both selectors give [undefined]; the guard never shows the spinner
    and never renders its children. *)
Theorem ProtectedRoute_always_redirects state :
  ProtectedRoute state = Navigate "/login" true.
Proof. reflexivity. Qed.

(** ** Sessions replaced and sessions left behind *)

(** X17: a successful login replaces the session whole.  Against the same
    answer, the [auth_state] it ends in is the same from any two starting
    states: nothing of the previous user, token, flags or error message
    remains. *)
Theorem login_success_replaces_session email password env w1 w2 r :
  server env (login_request (api_base env) email password) = Resolved r ->
  nullish (data r) = false ->
  auth_of (login email password env w1).1 = auth_of (login email password env w2).1.
Proof.
  intros Hr Hd. unfold_world. unfold_async. simpl.
  rewrite Hr. simpl. rewrite Hd. simpl. done.
Qed.

Lemma login_success_replaces_session_witness :
  auth_of (login "grace@example.com" "pw" (answering None (ok200 session_body)) signed_in).1
  = auth_of (login "grace@example.com" "pw" (answering None (ok200 session_body)) first_launch).1.
Proof.
  exact (login_success_replaces_session "grace@example.com" "pw"
           (answering None (ok200 session_body)) signed_in first_launch _ eq_refl eq_refl).
Defined.

(** X18: with a falsy token (null, undefined or the empty string),
    [check_auth] only resets the two flags: [current_user], [auth_token] and
    [error_message] are kept as they are, so a user object or an error
    message held without a token stays in the store. *)
Theorem check_auth_falsy_token_frame env w :
  truthy (auth_token (auth_of w)) = false ->
  authenticated (check_auth env w).1 = false /\
  loading (check_auth env w).1 = false /\
  current_user (auth_of (check_auth env w).1) = current_user (auth_of w) /\
  auth_token (auth_of (check_auth env w).1) = auth_token (auth_of w) /\
  error_message (auth_of (check_auth env w).1) = error_message (auth_of w).
Proof.
  unfold_world. intros Htoken. unfold_async. simpl. rewrite Htoken. simpl. done.
Qed.

Lemma check_auth_falsy_token_frame_witness :
  current_user
    (auth_of (check_auth (answering None network_down)
                (login "ada@example.com" "pw"
                   (answering None (ok200 (VObj [("user", VStr "u1")]))) first_launch).1).1)
  = VStr "u1".
Proof.
  pose proof (check_auth_falsy_token_frame (answering None network_down)
                (login "ada@example.com" "pw"
                   (answering None (ok200 (VObj [("user", VStr "u1")]))) first_launch).1
                eq_refl) as (_ & _ & Huser & _).
  rewrite Huser. reflexivity.
Defined.
